(** * TabKebab icon generator: [icons/generate_icons.py]

    A shallow embedding of the script and of the part of Python and of
    Pillow it consumes, followed by the properties of the composition
    and of the export loop. *)

From Stdlib Require Import ZArith Lia Ascii String DecimalString.
From Stdlib Require Import PrimFloat SpecFloat FloatOps.
From Stdlib Require DecimalPos DecimalZ.
From stdpp Require Import gmap strings list.

Set Warnings "-inexact-float".
Local Open Scope Z_scope.

(** ** Python: exceptions, numbers, strings *)

Module Py.

(** The exceptions that the modelled fragment can raise. *)
Inductive exn : Type :=
| ValueError
| OverflowError.

(** A computation either returns or raises. *)
Inductive result (A : Type) : Type :=
| Ok (a : A)
| Raise (e : exn).
Global Arguments Ok {A} a.
Global Arguments Raise {A} e.

Global Instance result_ret : MRet result := λ A a, Ok a.
Global Instance result_bind : MBind result := λ A B k m,
  match m with
  | Ok a => k a
  | Raise e => Raise e
  end.

Definition is_Ok {A} (m : result A) : bool :=
  match m with Ok _ => true | Raise _ => false end.

(** [float(n)] for an [int] [n]: the nearest double, ties to even;
    [OverflowError] when [n] is too large for a double. *)
Definition float_of_int (n : Z) : result float :=
  match binary_normalize prec emax n 0 false with
  | S754_infinity _ => Raise OverflowError
  | f => Ok (SF2Prim f)
  end.

(** [n * x] for an [int] [n] and a [float] [x]: [n] is converted first. *)
Definition int_mul_float (n : Z) (x : float) : result float :=
  f ← float_of_int n; Ok (PrimFloat.mul f x).

(** [int(x)] for a [float] [x]: truncation toward zero; [ValueError] on
    a NaN and [OverflowError] on an infinity. *)
Definition int_of_float (x : float) : result Z :=
  match Prim2SF x with
  | S754_zero _ => Ok 0
  | S754_finite s m e =>
      let v := match e with
               | Z0 => Zpos m
               | Zpos _ => Z.shiftl (Zpos m) e
               | Zneg p => Z.shiftr (Zpos m) (Zpos p)
               end in
      Ok (if s then - v else v)
  | S754_infinity _ => Raise OverflowError
  | S754_nan => Raise ValueError
  end.

(** [a // b] on ints is the floor division, as [Z.div] is. *)
Definition floordiv (a b : Z) : Z := a / b.

(** [str(n)], also the [{n}] of an f-string. *)
Definition str (n : Z) : string := NilZero.string_of_int (Z.to_int n).

(** [s.startswith(c)] and [s.endswith(c)] for a one-character [c]. *)
Definition startswith (s : string) (c : ascii) : bool :=
  match s with
  | String a _ => bool_decide (a = c)
  | EmptyString => false
  end.

Fixpoint endswith (s : string) (c : ascii) : bool :=
  match s with
  | EmptyString => false
  | String a EmptyString => bool_decide (a = c)
  | String _ rest => endswith rest c
  end.

(** [os.path.join(a, b)] of [posixpath], with its separator ["/"]. *)
Definition path_join (a b : string) : string :=
  if startswith b "/"%char then b
  else if bool_decide (a = "") || endswith a "/"%char then a +:+ b
  else a +:+ "/" +:+ b.

End Py.
Import Py.

Infix "//" := Py.floordiv (at level 40, left associativity) : Z_scope.

(** [int(S * r)]: the pattern behind every dimension of the icon. *)
Definition scaled (S : Z) (r : float) : result Z :=
  x ← int_mul_float S r; int_of_float x.
Global Arguments scaled S%_Z r%_float.

(** A loop [for x in l: acc = body(acc, x)] in a monad. *)
Fixpoint for_each `{MBind M, MRet M} {A B}
    (body : B → A → M B) (l : list A) (acc : B) : M B :=
  match l with
  | [] => mret acc
  | x :: rest => acc' ← body acc x; for_each body rest acc'
  end.

(** ** Pillow: the imaging interface the script consumes *)

Module PIL.

(** A fill or background colour: a tuple of three or four bands. *)
Definition color : Type := list Z.

(** A bounding box [[x0, y0, x1, y1]]. *)
Record box : Type := Box { x0 : Z; y0 : Z; x1 : Z; y1 : Z }.

(** The calls of [ImageDraw.Draw] the script issues. *)
Inductive draw_call : Type :=
| ellipse (xy : box) (fill : color)
| rounded_rectangle (xy : box) (radius : Z) (fill : color)
| polygon (xy : list (Z * Z)) (fill : color).

(** The resampling filters of [Image]. *)
Inductive resampling : Type :=
| NEAREST | BOX | BILINEAR | HAMMING | BICUBIC | LANCZOS.

Definition ordered (b : box) : bool :=
  (x0 b <=? x1 b) && (y0 b <=? y1 b).

Definition is_fill (c : color) : bool :=
  ((length c =? 3)%nat || (length c =? 4)%nat)
  && forallb (λ v, (0 <=? v) && (v <=? 255)) c.

(** The arguments a drawing call accepts on an ["RGBA"] image: an
    ordered box, a radius that is not negative, two points at least,
    a colour of three or four bands. *)
Definition well_formed (c : draw_call) : bool :=
  match c with
  | ellipse xy fill => ordered xy && is_fill fill
  | rounded_rectangle xy radius fill =>
      ordered xy && (0 <=? radius) && is_fill fill
  | polygon xy fill => (2 <=? length xy)%nat && is_fill fill
  end.

(** Modes with an alpha band. *)
Definition has_alpha (mode : string) : bool :=
  bool_decide (mode = "RGBA") || bool_decide (mode = "LA").

(** The capability set: create a canvas, draw on it (the drawing
    context mutates the image it was made from, so a call maps the
    image to the image after it), resize. Each may raise. The laws are
    the part of Pillow's behaviour the script relies on: [Image.new]
    returns an image of the mode and size asked for; a drawing call
    with arguments it accepts returns and leaves size and mode as they
    were; [resize] to a width and height of one pixel or more returns
    an image of that size in the mode of its source, and raises
    [ValueError] (height and width must be > 0) otherwise. *)
Class Imaging : Type := {
  image : Type;
  im_size : image → Z * Z;
  im_mode : image → string;
  Image_new : string → Z * Z → color → result image;
  draw : draw_call → image → result image;
  resize : image → Z * Z → resampling → result image;

  Image_new_RGBA : ∀ w h c,
    0 ≤ w → 0 ≤ h → length c = 4%nat →
    ∃ im, Image_new "RGBA" (w, h) c = Ok im
          ∧ im_size im = (w, h) ∧ im_mode im = "RGBA";
  draw_well_formed : ∀ c im,
    well_formed c = true →
    ∃ im', draw c im = Ok im'
           ∧ im_size im' = im_size im ∧ im_mode im' = im_mode im;
  resize_positive : ∀ im w h f,
    1 ≤ w → 1 ≤ h →
    ∃ im', resize im (w, h) f = Ok im'
           ∧ im_size im' = (w, h) ∧ im_mode im' = im_mode im;
  resize_rejects : ∀ im w h f,
    w < 1 ∨ h < 1 → resize im (w, h) f = Raise ValueError
}.

(** An image file: the encoding of an image in a format. Its declared
    dimensions are the image's. *)
Record file `{Imaging} : Type :=
  File { file_format : string; file_image : image }.
Global Arguments File {_} file_format file_image.

Definition declared_size `{Imaging} (f : file) : Z * Z :=
  im_size (file_image f).

End PIL.
Import PIL.

(** *** The recording implementation

    An image is the history of the calls that made it: what was
    allocated, what was drawn on it and in which order, how it was
    resized. Every other implementation interprets this history. *)

Module Recording.

Inductive history : Type :=
| Allocated (mode : string) (size : Z * Z) (background : color)
| Drawn (c : draw_call) (earlier : history)
| Resized (source : history) (size : Z * Z) (filter : resampling).

Fixpoint h_size (h : history) : Z * Z :=
  match h with
  | Allocated _ size _ => size
  | Drawn _ earlier => h_size earlier
  | Resized _ size _ => size
  end.

Fixpoint h_mode (h : history) : string :=
  match h with
  | Allocated mode _ _ => mode
  | Drawn _ earlier => h_mode earlier
  | Resized source _ _ => h_mode source
  end.

(** The drawing calls behind an image, first issued first. *)
Fixpoint calls (h : history) : list draw_call :=
  match h with
  | Allocated _ _ _ => []
  | Drawn c earlier => calls earlier ++ [c]
  | Resized source _ _ => calls source
  end.

Definition h_new (mode : string) (size : Z * Z) (c : color)
    : result history :=
  if (size.1 <? 0) || (size.2 <? 0) then Raise ValueError
  else Ok (Allocated mode size c).

Definition h_draw (c : draw_call) (h : history) : result history :=
  if well_formed c then Ok (Drawn c h) else Raise ValueError.

Definition h_resize (h : history) (size : Z * Z) (f : resampling)
    : result history :=
  if (size.1 <? 1) || (size.2 <? 1) then Raise ValueError
  else Ok (Resized h size f).

#[export] Program Instance recording : Imaging := {|
  image := history;
  im_size := h_size;
  im_mode := h_mode;
  Image_new := h_new;
  draw := h_draw;
  resize := h_resize
|}.
Next Obligation.
  intros w h c Hw Hh _. exists (Allocated "RGBA" (w, h) c).
  unfold h_new; cbn.
  destruct (Z.ltb_spec w 0), (Z.ltb_spec h 0); try lia. done.
Qed.
Next Obligation.
  intros c im Hc. exists (Drawn c im). unfold h_draw. by rewrite Hc.
Qed.
Next Obligation.
  intros im w h f Hw Hh. exists (Resized im (w, h) f).
  unfold h_resize; cbn.
  destruct (Z.ltb_spec w 1), (Z.ltb_spec h 1); try lia. done.
Qed.
Next Obligation.
  intros im w h f Hwh. unfold h_resize; cbn.
  destruct (Z.ltb_spec w 1), (Z.ltb_spec h 1); try lia; done.
Qed.

End Recording.
Import Recording.

(** ** The script *)

(** The module's globals. [ICONS_DIR] is the directory of the script
    file, which the environment decides; the two others are literals. *)
Record globals : Type := Globals {
  ICONS_DIR : string;
  SIZES : list Z;
  RENDER_SIZE : Z
}.

(** The globals after the module's top-level assignments, in a process
    whose [os.path.dirname(os.path.abspath(__file__))] is [script_dir]. *)
Definition module_globals (script_dir : string) : globals :=
  {| ICONS_DIR := script_dir;
     SIZES := [16; 32; 48; 128];
     RENDER_SIZE := 512 |}.

(** One entry of the [chunks] table:
    [(y_center_ratio, w_ratio, h_ratio, main_color, tab_color)]. *)
Record chunk : Type := Chunk {
  y_center_ratio : float;
  w_ratio : float;
  h_ratio : float;
  main_color : color;
  tab_color : color
}.
Global Arguments Chunk (y_center_ratio w_ratio h_ratio)%_float
  (main_color tab_color)%_Z.

Definition chunks : list chunk := [
  Chunk 0.234 0.344 0.156 [248; 113; 113] [252; 165; 165];
  Chunk 0.422 0.344 0.156 [251; 191; 36]  [253; 230; 138];
  Chunk 0.609 0.344 0.156 [52; 211; 153]  [110; 231; 183];
  Chunk 0.781 0.281 0.125 [167; 139; 250] [196; 181; 253]
].

Section Script.

Context {L : Imaging}.

(** The body of the loop over [chunks]: the chunk, then its notch. *)
Definition draw_chunk (S : Z) (img : image) (c : chunk) : result image :=
  let '(Chunk yc wr hr main_col tab_col) := c in
  w ← scaled S wr;
  h ← scaled S hr;
  yc_px ← scaled S yc;
  let y := yc_px - h // 2 in
  let x := (S - w) // 2 in
  r ← scaled S 0.039;
  img ← draw (rounded_rectangle (Box x y (x + w) (y + h)) r main_col) img;
  tab_w ← scaled S 0.109;
  tab_h ← scaled S 0.047;
  tab_r_px ← scaled S 0.016;
  let tab_r := Z.max 2 tab_r_px in
  off_l ← scaled S 0.031;
  off_r ← scaled S 0.031;
  draw (rounded_rectangle
          (Box (x + off_l) y (x + off_r + tab_w) (y + tab_h))
          tab_r tab_col) img.

Definition draw_icon (g : globals) (size : Z) : result image :=
  img ← Image_new "RGBA" (RENDER_SIZE g, RENDER_SIZE g) [0; 0; 0; 0];
  let S := RENDER_SIZE g in
  margin ← scaled S 0.0625;
  img ← draw (ellipse (Box margin margin (S - margin) (S - margin))
                [37; 99; 235]) img;
  stick_w ← scaled S 0.0625;
  let stick_x := (S - stick_w) // 2 in
  stick_top ← scaled S 0.109;
  stick_bot ← scaled S 0.891;
  img ← draw (rounded_rectangle
                (Box stick_x stick_top (stick_x + stick_w) stick_bot)
                (stick_w // 2) [248; 249; 250]) img;
  tip_top ← scaled S 0.844;
  tip_bot ← scaled S 0.953;
  let cx := S // 2 in
  img ← draw (polygon [(cx - stick_w // 2, tip_top);
                       (cx + stick_w // 2, tip_top);
                       (cx, tip_bot)]
                [248; 249; 250]) img;
  img ← for_each (draw_chunk S) chunks img;
  knob_cy ← scaled S 0.109;
  knob_r_outer ← scaled S 0.047;
  knob_r_inner ← scaled S 0.023;
  img ← draw (ellipse (Box (cx - knob_r_outer) (knob_cy - knob_r_outer)
                           (cx + knob_r_outer) (knob_cy + knob_r_outer))
                [248; 249; 250]) img;
  img ← draw (ellipse (Box (cx - knob_r_inner) (knob_cy - knob_r_inner)
                           (cx + knob_r_inner) (knob_cy + knob_r_inner))
                [37; 99; 235]) img;
  resize img (size, size) LANCZOS.

(** The world the export loop acts on: the files by path and the lines
    printed so far. *)
Record world : Type := World {
  files : gmap string file;
  stdout : list string
}.

(** A statement of the main block: it changes the world and returns or
    raises; what was written before an exception stays written. *)
Definition action (A : Type) : Type := world → result A * world.

#[local] Instance action_ret : MRet action := λ A a w, (Ok a, w).
#[local] Instance action_bind : MBind action := λ A B k m w,
  match m w with
  | (Ok a, w') => k a w'
  | (Raise e, w') => (Raise e, w')
  end.

(** A call that has no effect on the world. *)
Definition lift {A} (m : result A) : action A := λ w, (m, w).

(** [icon.save(path, format)]; the directory is the script's own. *)
Definition save (icon : image) (path format : string) : action () :=
  λ w, (Ok (), World (<[path := File format icon]> (files w)) (stdout w)).

Definition print (line : string) : action () :=
  λ w, (Ok (), World (files w) (stdout w ++ [line])).

(** The body of the loop over [SIZES]. *)
Definition export (g : globals) (_ : ()) (s : Z) : action () :=
  icon ← lift (draw_icon g s);
  let out_path := path_join (ICONS_DIR g) ("icon" +:+ str s +:+ ".png") in
  _ ← save icon out_path "PNG";
  print ("  Generated " +:+ out_path +:+ " (" +:+ str s +:+ "x" +:+ str s
         +:+ ")").

(** The block under [if __name__ == '__main__']. *)
Definition main (g : globals) : action () :=
  _ ← for_each (export g) (SIZES g) ();
  print "Done!".

End Script.

(** ** Shape descriptors

    The composition as a table: position, extent, corner radius and fill
    of every primitive, in drawing order, each dimension a canonical
    size times a ratio or derived from such by [+], [-] and [// 2]. *)

(** [int(S * r)] where it returns. *)
Definition sc (S : Z) (r : float) : Z :=
  match scaled S r with
  | Ok v => v
  | Raise _ => 0
  end.
Global Arguments sc S%_Z r%_float.

(** A chunk and its notch; the notch's corner radius is a parameter. *)
Definition chunk_descriptors (notch_radius S : Z) (c : chunk)
    : list draw_call :=
  let w := sc S (w_ratio c) in
  let h := sc S (h_ratio c) in
  let y := sc S (y_center_ratio c) - h // 2 in
  let x := (S - w) // 2 in
  [ rounded_rectangle (Box x y (x + w) (y + h)) (sc S 0.039) (main_color c);
    rounded_rectangle
      (Box (x + sc S 0.031) y (x + sc S 0.031 + sc S 0.109) (y + sc S 0.047))
      notch_radius (tab_color c) ].

Definition shape_descriptors (notch_radius S : Z) : list draw_call :=
  let margin := sc S 0.0625 in
  let stick_w := sc S 0.0625 in
  let stick_x := (S - stick_w) // 2 in
  let cx := S // 2 in
  let knob_cy := sc S 0.109 in
  [ ellipse (Box margin margin (S - margin) (S - margin)) [37; 99; 235];
    rounded_rectangle
      (Box stick_x (sc S 0.109) (stick_x + stick_w) (sc S 0.891))
      (stick_w // 2) [248; 249; 250];
    polygon [(cx - stick_w // 2, sc S 0.844);
             (cx + stick_w // 2, sc S 0.844);
             (cx, sc S 0.953)]
      [248; 249; 250] ]
  ++ flat_map (chunk_descriptors notch_radius S) chunks
  ++ [ ellipse (Box (cx - sc S 0.047) (knob_cy - sc S 0.047)
                    (cx + sc S 0.047) (knob_cy + sc S 0.047))
         [248; 249; 250];
       ellipse (Box (cx - sc S 0.023) (knob_cy - sc S 0.023)
                    (cx + sc S 0.023) (knob_cy + sc S 0.023))
         [37; 99; 235] ].

(** The composition with every constant a canonical size times a ratio,
    the notch radius like the others. *)
Definition ratio_composition (S : Z) : list draw_call :=
  shape_descriptors (sc S 0.016) S.

(** The composition with the notch radius kept at two pixels or more. *)
Definition composition (S : Z) : list draw_call :=
  shape_descriptors (Z.max 2 (sc S 0.016)) S.

(** The canvas a list of calls leaves behind in the recording
    implementation. *)
Definition canvas_of (S : Z) (cs : list draw_call) : history :=
  foldl (λ h c, Drawn c h) (Allocated "RGBA" (S, S) [0; 0; 0; 0]) cs.

(** Boxes: containment, and separation of the rows they span. *)
Definition box_within (inner outer : box) : bool :=
  (x0 outer <=? x0 inner) && (x1 inner <=? x1 outer)
  && (y0 outer <=? y0 inner) && (y1 inner <=? y1 outer).

Definition rows_disjoint (a b : box) : bool :=
  (y1 a <? y0 b) || (y1 b <? y0 a).

(** The vertical band of a chunk:
    [[int(S*yc) - int(S*hr)//2, int(S*yc) - int(S*hr)//2 + int(S*hr)]]. *)
Definition band (S : Z) (c : chunk) : Z * Z :=
  let h := sc S (h_ratio c) in
  let y := sc S (y_center_ratio c) - h // 2 in
  (y, y + h).

Definition bands_disjoint (a b : Z * Z) : bool :=
  (a.2 <? b.1) || (b.2 <? a.1).

Definition rows_within (b : box) (rows : Z * Z) : bool :=
  (rows.1 <=? y0 b) && (y1 b <=? rows.2).

(** The box and the radius of a rounded rectangle. *)
Definition rounded_box (c : draw_call) : option box :=
  match c with
  | rounded_rectangle xy _ _ => Some xy
  | _ => None
  end.

Definition rounded_radius (c : draw_call) : option Z :=
  match c with
  | rounded_rectangle _ radius _ => Some radius
  | _ => None
  end.

(** The calls the script issues with the module's own globals. *)
Definition shipped : list draw_call := [
  ellipse (Box 32 32 480 480) [37; 99; 235];
  rounded_rectangle (Box 240 55 272 456) 16 [248; 249; 250];
  polygon [(240, 432); (272, 432); (256, 487)] [248; 249; 250];
  rounded_rectangle (Box 168 80 344 159) 19 [248; 113; 113];
  rounded_rectangle (Box 183 80 238 104) 8 [252; 165; 165];
  rounded_rectangle (Box 168 177 344 256) 19 [251; 191; 36];
  rounded_rectangle (Box 183 177 238 201) 8 [253; 230; 138];
  rounded_rectangle (Box 168 272 344 351) 19 [52; 211; 153];
  rounded_rectangle (Box 183 272 238 296) 8 [110; 231; 183];
  rounded_rectangle (Box 184 367 327 431) 19 [167; 139; 250];
  rounded_rectangle (Box 199 367 254 391) 8 [196; 181; 253];
  ellipse (Box 232 31 280 79) [248; 249; 250];
  ellipse (Box 245 44 267 66) [37; 99; 235]
].

(** The tip as a triangle hung from the stick's two bottom corners:
    the calls at positions 1 and 2 are the stick and the tip, the tip's
    upper vertices are the stick's bottom-left and bottom-right corners,
    its apex lies lower, and both have one fill. *)
Definition tip_meets_stick_bottom (cs : list draw_call) : Prop :=
  ∃ stick r fill apex,
    cs !! 1%nat = Some (rounded_rectangle stick r fill)
    ∧ cs !! 2%nat
      = Some (polygon [(x0 stick, y1 stick); (x1 stick, y1 stick); apex]
                fill)
    ∧ y1 stick < apex.2.

(** An image of a lawful implementation agrees with a recorded history
    on what the laws speak of: size and mode. *)
Definition sim {L : Imaging} (h : history) (im : @image L) : Prop :=
  im_size im = h_size h ∧ im_mode im = h_mode h.

(** ** The ratios as Python reads them *)

(** The double nearest to the fraction [p / q]. *)
Definition nearest_double (p q : Z) : float :=
  SF2Prim (SFdiv prec emax (binary_normalize prec emax p 0 false)
             (binary_normalize prec emax q 0 false)).

(** The ratios of the script with their decimal fractions. *)
Definition ratios : list (float * (Z * Z)) := [
  (0.0625%float, (625, 10000)); (0.109%float, (109, 1000));
  (0.891%float, (891, 1000)); (0.844%float, (844, 1000));
  (0.953%float, (953, 1000)); (0.234%float, (234, 1000));
  (0.344%float, (344, 1000)); (0.156%float, (156, 1000));
  (0.422%float, (422, 1000)); (0.609%float, (609, 1000));
  (0.781%float, (781, 1000)); (0.281%float, (281, 1000));
  (0.125%float, (125, 1000)); (0.039%float, (39, 1000));
  (0.047%float, (47, 1000)); (0.016%float, (16, 1000));
  (0.031%float, (31, 1000)); (0.023%float, (23, 1000))
].

(** ** The exporter's paths and lines *)

(** [os.path.join(ICONS_DIR, f'icon{s}.png')]. *)
Definition out_path (dir : string) (s : Z) : string :=
  path_join dir ("icon" +:+ str s +:+ ".png").

(** [f'  Generated {out_path} ({s}x{s})']. *)
Definition report (dir : string) (s : Z) : string :=
  "  Generated " +:+ out_path dir s +:+ " (" +:+ str s +:+ "x" +:+ str s
  +:+ ")".

(** ** Reading a drawing call *)

(** The columns a call spans: those of its box, or those of its
    points. *)
Definition x_span (c : draw_call) : option (Z * Z) :=
  match c with
  | ellipse xy _ | rounded_rectangle xy _ _ => Some (x0 xy, x1 xy)
  | polygon [] _ => None
  | polygon (p :: rest) _ =>
      Some (foldr Z.min p.1 (fst <$> rest), foldr Z.max p.1 (fst <$> rest))
  end.

(** The box of an ellipse or of a rounded rectangle. *)
Definition call_box (c : draw_call) : option box :=
  match c with
  | ellipse xy _ | rounded_rectangle xy _ _ => Some xy
  | polygon _ _ => None
  end.

Definition fill_of (c : draw_call) : color :=
  match c with
  | ellipse _ fill | rounded_rectangle _ _ fill | polygon _ fill => fill
  end.

(** ** Checks on a canonical size *)

(** Every step of [draw_icon] before the resize returns at the
    canonical size [S]: the canvas can be allocated, every [int(S * r)]
    returns, every drawing call is one the library accepts. *)
Definition composes_at (S : Z) : bool :=
  (0 <=? S)
  && forallb (λ r, is_Ok (scaled S r)) (fst <$> ratios)
  && forallb well_formed (composition S).

(** A call stays on a canvas of edge [S]. *)
Definition in_canvas (S : Z) (c : draw_call) : bool :=
  match c with
  | ellipse b _ | rounded_rectangle b _ _ =>
      (0 <=? x0 b) && (x1 b <=? S) && (0 <=? y0 b) && (y1 b <=? S)
  | polygon pts _ =>
      forallb (λ p, (0 <=? p.1) && (p.1 <=? S) && (0 <=? p.2) && (p.2 <=? S))
        pts
  end.

(** In a list of calls: the box of chunk [i], at position [3 + 2 i],
    of its notch, at the next position, and of the stick, at 1. *)
Definition body_box (cs : list draw_call) (i : nat) : option box :=
  cs !! (3 + 2 * i)%nat ≫= call_box.

Definition notch_box (cs : list draw_call) (i : nat) : option box :=
  cs !! (4 + 2 * i)%nat ≫= call_box.

Definition stick_box (cs : list draw_call) : option box :=
  cs !! 1%nat ≫= call_box.

(** The notch of chunk [i] lies within the chunk, and the stick runs
    through the chunk: it is no wider and it starts above and ends
    below. *)
Definition chunk_ok (cs : list draw_call) (i : nat) : bool :=
  match stick_box cs, body_box cs i, notch_box cs i with
  | Some stick, Some body, Some notch =>
      box_within notch body
      && (x0 body <=? x0 stick) && (x1 stick <=? x1 body)
      && (y0 stick <=? y0 body) && (y1 body <=? y1 stick)
  | _, _, _ => false
  end.

(** Chunk [i] ends above the row where chunk [j] starts. *)
Definition chunk_above (cs : list draw_call) (ij : nat * nat) : bool :=
  match body_box cs ij.1, body_box cs ij.2 with
  | Some a, Some b => y1 a <? y0 b
  | _, _ => false
  end.

(** [int(S * r)] is the floor of the exact product [S * p / q]. *)
Definition exact_at (S : Z) (entry : float * (Z * Z)) : bool :=
  match scaled S entry.1 with
  | Ok v => v =? S * entry.2.1 / entry.2.2
  | Raise _ => false
  end.

(** All of it at one canonical size. The chunks are only asked to be
    apart from 34 pixels on, and the products to be exact away from
    625. *)
Definition size_ok (S : Z) : bool :=
  let cs := composition S in
  composes_at S
  && forallb (in_canvas S) cs
  && forallb (chunk_ok cs) [0; 1; 2; 3]%nat
  && ((S <? 34)
      || forallb (chunk_above cs)
           [(0, 1); (0, 2); (0, 3); (1, 2); (1, 3); (2, 3)]%nat)
  && ((S =? 625) || forallb (exact_at S) ratios).

(** ** Stepping through a computation *)

Lemma bind_Ok {A B} (m : result A) (k : A → result B) (b : B) :
  m ≫= k = Ok b → ∃ a, m = Ok a ∧ k a = Ok b.
Proof. destruct m as [a|e]; cbn; [eauto | discriminate]. Qed.

Lemma bind_Raise {A B} (m : result A) (k : A → result B) :
  (∀ a, ∃ e, k a = Raise e) → ∃ e, m ≫= k = Raise e.
Proof. intros Hk. destruct m as [a|e]; cbn; eauto. Qed.

Lemma bind_assoc {A B C} (m : result A) (k : A → result B)
    (k' : B → result C) :
  (m ≫= k) ≫= k' = m ≫= (λ a, k a ≫= k').
Proof. by destruct m. Qed.

Lemma scaled_sc S r v : scaled S r = Ok v → v = sc S r.
Proof. unfold sc. by intros ->. Qed.

Lemma h_new_Ok mode size c h :
  h_new mode size c = Ok h → h = Allocated mode size c.
Proof. unfold h_new. case_match; congruence. Qed.

Lemma h_draw_Ok c h h' :
  h_draw c h = Ok h' → h' = Drawn c h ∧ well_formed c = true.
Proof. unfold h_draw. case_match; [split; congruence | discriminate]. Qed.

Lemma h_resize_Ok h size f h' :
  h_resize h size f = Ok h' →
  h' = Resized h size f ∧ 1 ≤ size.1 ∧ 1 ≤ size.2.
Proof.
  unfold h_resize.
  destruct (Z.ltb_spec size.1 1), (Z.ltb_spec size.2 1); cbn;
    try discriminate.
  intros [= <-]. auto.
Qed.

(** A decimal literal denotes the double nearest to it, and at the
    canonical size 512 the truncated product is the floor of the exact
    one: rounding in the doubles moves no dimension. *)
Lemma ratios_nearest_and_exact :
  Forall (λ '(r, (p, q)),
            r = nearest_double p q ∧ scaled 512 r = Ok (512 * p / q))
    ratios.
Proof. repeat constructor; vm_compute; reflexivity. Qed.

(** ** The recording implementation records the composition *)

Ltac step H :=
  let v := fresh "v" in
  let E := fresh "E" in
  apply bind_Ok in H as (v & E & H);
  first
    [ apply scaled_sc in E; subst v
    | apply h_draw_Ok in E as [-> _]
    | apply h_new_Ok in E; subst v ].

Lemma draw_chunk_recorded S h c h' :
  draw_chunk S h c = Ok h' →
  h' = foldl (λ h c, Drawn c h) h
         (chunk_descriptors (Z.max 2 (sc S 0.016)) S c).
Proof.
  destruct c as [yc wr hr main_col tab_col]. unfold draw_chunk.
  intros Hrun. do 10 step Hrun.
  apply h_draw_Ok in Hrun as [-> _]. reflexivity.
Qed.

Lemma for_each_chunk_recorded S cs h h' :
  for_each (draw_chunk S) cs h = Ok h' →
  h' = foldl (λ h c, Drawn c h) h
         (flat_map (chunk_descriptors (Z.max 2 (sc S 0.016)) S) cs).
Proof.
  revert h. induction cs as [|c cs IH]; intros h; cbn [for_each flat_map].
  - by intros [= <-].
  - intros Hrun. apply bind_Ok in Hrun as (h1 & E & Hrun).
    apply draw_chunk_recorded in E as ->.
    rewrite foldl_app. by apply IH.
Qed.

Lemma calls_foldl_Drawn h cs :
  calls (foldl (λ h c, Drawn c h) h cs) = calls h ++ cs.
Proof.
  revert h. induction cs as [|c cs IH]; intros h; cbn.
  - by rewrite app_nil_r.
  - rewrite IH. cbn. by rewrite <- app_assoc.
Qed.

Lemma calls_canvas_of S cs : calls (canvas_of S cs) = cs.
Proof. unfold canvas_of. by rewrite calls_foldl_Drawn. Qed.

(** Whatever the canonical size, an icon that is returned is the
    resampling of the canvas of [composition]. *)
Lemma draw_icon_recorded g size im :
  draw_icon g size = Ok im →
  im = Resized (canvas_of (RENDER_SIZE g) (composition (RENDER_SIZE g)))
         (size, size) LANCZOS
  ∧ 1 ≤ size.
Proof.
  unfold draw_icon. intros Hrun. do 10 step Hrun.
  apply bind_Ok in Hrun as (h1 & E & Hrun).
  apply for_each_chunk_recorded in E as ->.
  do 5 step Hrun.
  apply h_resize_Ok in Hrun as (-> & Hsize & _).
  split; [|done].
  unfold canvas_of, composition, shape_descriptors.
  by rewrite !foldl_app.
Qed.

(** With the module's own globals every step before the resize
    returns. *)
Lemma draw_icon_shipped_resize dir size :
  draw_icon (module_globals dir) size
  = h_resize (canvas_of 512 (composition 512)) (size, size) LANCZOS.
Proof.
  unfold draw_icon.
  set (k := λ img : image, resize img (size, size) LANCZOS).
  change (h_resize ?h (size, size) LANCZOS) with (k h).
  clearbody k. vm_compute. reflexivity.
Qed.

Lemma draw_icon_shipped dir size :
  1 ≤ size →
  draw_icon (module_globals dir) size
  = Ok (Resized (canvas_of 512 (composition 512)) (size, size) LANCZOS).
Proof.
  intros Hsize. rewrite draw_icon_shipped_resize.
  unfold h_resize. cbn [fst snd].
  destruct (Z.ltb_spec size 1); [lia | done].
Qed.

Lemma composition_shipped : composition 512 = shipped.
Proof. vm_compute. reflexivity. Qed.

(** ** A lawful implementation follows the recording one *)

Section Lawful.

Context {L : Imaging}.

Lemma sim_new w h c h0 :
  length c = 4%nat → h_new "RGBA" (w, h) c = Ok h0 →
  ∃ im, Image_new "RGBA" (w, h) c = Ok im ∧ sim h0 im.
Proof.
  intros Hc. unfold h_new. cbn [fst snd].
  destruct (Z.ltb_spec w 0), (Z.ltb_spec h 0); cbn; try discriminate.
  intros [= <-].
  destruct (Image_new_RGBA w h c) as (im & -> & Hs & Hm); [done..|].
  exists im. by repeat split.
Qed.

Lemma sim_draw c h h' im :
  sim h im → h_draw c h = Ok h' →
  ∃ im', draw c im = Ok im' ∧ sim h' im'.
Proof.
  intros [Hs Hm] [-> Hc]%h_draw_Ok.
  destruct (draw_well_formed c im Hc) as (im' & -> & Hs' & Hm').
  exists im'. split; [done|]. split; cbn; congruence.
Qed.

Lemma sim_resize h h' im size f :
  sim h im → h_resize h (size, size) f = Ok h' →
  ∃ im', resize im (size, size) f = Ok im' ∧ sim h' im'.
Proof.
  intros [Hs Hm] (-> & Hsize & _)%h_resize_Ok. cbn in Hsize.
  destruct (resize_positive im size size f) as (im' & -> & Hs' & Hm');
    [done..|].
  exists im'. split; [done|]. split; cbn; congruence.
Qed.

(** One statement of the recorded run, replayed on the lawful side. *)
Ltac sim_step H :=
  let v := fresh "v" in
  let E := fresh "E" in
  apply bind_Ok in H as (v & E & H);
  first
    [ match goal with
      | Hsim : sim _ _ |- _ =>
          let im' := fresh "im" in
          destruct (sim_draw _ _ _ _ Hsim E) as (im' & -> & ?);
          clear Hsim E
      end
    | rewrite ?E in H; rewrite E ];
  cbn [mbind result_bind] in H |- *.

Lemma sim_draw_chunk S c h h' im :
  sim h im → draw_chunk (L := recording) S h c = Ok h' →
  ∃ im', draw_chunk (L := L) S im c = Ok im' ∧ sim h' im'.
Proof.
  destruct c as [yc wr hr main_col tab_col]. unfold draw_chunk.
  intros Hsim Hrun. repeat sim_step Hrun. eauto using sim_draw.
Qed.

Lemma sim_for_each S cs h h' im :
  sim h im → for_each (draw_chunk (L := recording) S) cs h = Ok h' →
  ∃ im', for_each (draw_chunk (L := L) S) cs im = Ok im' ∧ sim h' im'.
Proof.
  revert h im. induction cs as [|c cs IH]; intros h im Hsim; cbn [for_each].
  - intros [= <-]. eauto.
  - intros (h1 & E & Hrun)%bind_Ok.
    destruct (sim_draw_chunk _ _ _ _ _ Hsim E) as (im1 & -> & Hsim1).
    cbn [mbind result_bind]. eauto.
Qed.

Ltac sim_loop H :=
  let h1 := fresh "h" in
  let E := fresh "E" in
  apply bind_Ok in H as (h1 & E & H);
  match goal with
  | Hsim : sim _ _ |- _ =>
      let im' := fresh "im" in
      destruct (sim_for_each _ _ _ _ _ Hsim E) as (im' & -> & ?);
      clear Hsim E
  end;
  cbn [mbind result_bind] in H |- *.

(** Where the recording run returns, so does every lawful one, with an
    image of the same size and mode. *)
Lemma sim_draw_icon g size h :
  draw_icon (L := recording) g size = Ok h →
  ∃ im, draw_icon (L := L) g size = Ok im ∧ sim h im.
Proof.
  unfold draw_icon. intros Hrun.
  apply bind_Ok in Hrun as (h0 & E & Hrun).
  apply sim_new in E as (im0 & -> & Hsim0); [|done].
  cbn [mbind result_bind].
  repeat sim_step Hrun. sim_loop Hrun. repeat sim_step Hrun.
  eauto using sim_resize.
Qed.

Lemma draw_icon_lawful dir s :
  1 ≤ s →
  ∃ icon, draw_icon (module_globals dir) s = Ok icon
          ∧ im_size icon = (s, s) ∧ im_mode icon = "RGBA".
Proof.
  intros Hpos.
  destruct (sim_draw_icon _ _ _ (draw_icon_shipped dir s Hpos))
    as (icon & Hrun & Hsize & Hmode).
  by exists icon.
Qed.

(** One statement of a run that returned: its value is named and the
    later statements go on from it. *)
Ltac run_step H :=
  let v := fresh "v" in
  let E := fresh "E" in
  apply bind_Ok in H as (v & E & H);
  rewrite ?E in H; cbn [mbind result_bind] in H.

Ltac replay :=
  repeat match goal with
         | E : ?m = Ok _ |- _ => rewrite E; cbn [mbind result_bind]
         end.

(** The canvas is composed before the target size is looked at: a run
    that returns went through a canvas of which every run, at any size
    and under any globals with this canonical size, is the resize. *)
Lemma draw_icon_factors g size icon :
  draw_icon g size = Ok icon →
  ∃ canvas,
    resize canvas (size, size) LANCZOS = Ok icon
    ∧ ∀ g' size', RENDER_SIZE g' = RENDER_SIZE g →
        draw_icon g' size' = resize canvas (size', size') LANCZOS.
Proof.
  unfold draw_icon. intros Hrun. repeat run_step Hrun.
  eexists. split; [exact Hrun|].
  intros g' size' ->. replay. reflexivity.
Qed.

Lemma draw_icon_never_returns g size :
  size ≤ 0 → ∃ e, draw_icon g size = Raise e.
Proof.
  intros Hsize. unfold draw_icon.
  repeat (apply bind_Raise; intros ?).
  exists ValueError. apply resize_rejects. lia.
Qed.

End Lawful.

(** ** The composer *)

(** C1: for every size [s] of the size list, [draw_icon s] returns an
    image of exactly [s] by [s] pixels in mode ["RGBA"], which has an
    alpha band. *)
Theorem draw_icon_size_and_alpha {L : Imaging} (dir : string) (s : Z) :
  s ∈ SIZES (module_globals dir) →
  ∃ icon, draw_icon (module_globals dir) s = Ok icon
          ∧ im_size icon = (s, s)
          ∧ im_mode icon = "RGBA"
          ∧ has_alpha (im_mode icon) = true.
Proof.
  intros Hs.
  assert (1 ≤ s) as Hpos.
  { cbn in Hs. repeat (apply elem_of_cons in Hs as [-> | Hs]; [lia|]).
    by apply elem_of_nil in Hs. }
  destruct (draw_icon_lawful dir s Hpos) as (icon & Hrun & Hsize & Hmode).
  exists icon. by rewrite Hmode.
Qed.

Lemma draw_icon_size_and_alpha_witness :
  48 ∈ SIZES (module_globals "/ext/icons")
  ∧ ∃ icon, draw_icon (L := recording) (module_globals "/ext/icons") 48
            = Ok icon
            ∧ im_size icon = (48, 48)
            ∧ im_mode icon = "RGBA"
            ∧ has_alpha (im_mode icon) = true.
Proof.
  split.
  - cbn. rewrite !elem_of_cons. auto.
  - apply (draw_icon_size_and_alpha (L := recording) "/ext/icons" 48).
    cbn. rewrite !elem_of_cons. auto.
Defined.



(** C5: for every size that is not positive [draw_icon] raises: the
    resize rejects the size, no image is returned. *)
Theorem draw_icon_rejects_nonpositive {L : Imaging} (dir : string)
    (size : Z) :
  size ≤ 0 →
  draw_icon (module_globals dir) size = Raise ValueError.
Proof.
  intros Hsize.
  destruct (draw_icon_lawful dir 1) as (icon & Hrun & _); [done|].
  apply draw_icon_factors in Hrun as (canvas & _ & ->); [|done].
  apply resize_rejects. lia.
Qed.

Lemma draw_icon_rejects_nonpositive_witness :
  draw_icon (L := recording) (module_globals "/ext/icons") 0
  = Raise ValueError
  ∧ draw_icon (L := recording) (module_globals "/ext/icons") (-16)
    = Raise ValueError.
Proof.
  split.
  - apply (draw_icon_rejects_nonpositive (L := recording)). lia.
  - apply (draw_icon_rejects_nonpositive (L := recording)). lia.
Defined.

(** C9: the composed canvas does not depend on the size argument, which
    is used in the final resize only. With the module's globals there
    is one canvas of which every run, at any size, is the resize; and
    whatever the canonical size, a run that returns went through a
    canvas of which the run at any other size, under any globals with
    the same [RENDER_SIZE], is the resize. *)
Theorem canvas_independent_of_size {L : Imaging} :
  (∀ dir, ∃ canvas,
     ∀ g size, RENDER_SIZE g = RENDER_SIZE (module_globals dir) →
       draw_icon g size = resize canvas (size, size) LANCZOS)
  ∧ (∀ g s1 icon1,
       draw_icon g s1 = Ok icon1 →
       ∃ canvas,
         resize canvas (s1, s1) LANCZOS = Ok icon1
         ∧ ∀ g' s2, RENDER_SIZE g' = RENDER_SIZE g →
             draw_icon g' s2 = resize canvas (s2, s2) LANCZOS).
Proof.
  split; [|apply draw_icon_factors].
  intros dir.
  destruct (draw_icon_lawful dir 1) as (icon & Hrun & _); [done|].
  apply draw_icon_factors in Hrun as (canvas & _ & Hall). eauto.
Qed.



(** C4, the notch radius set apart: every dimension passed to a drawing
    call is [int(RENDER_SIZE * ratio)], or derived from such values and
    [RENDER_SIZE] by [+], [-] and [// 2], but for the notch's corner
    radius, [max(2, int(RENDER_SIZE * 0.016))], which is never below two
    pixels; where [int(RENDER_SIZE * 0.016)] is two or more, the
    composition is the one of canonical size times ratio throughout. *)
Theorem composition_scales_but_for_notch_radius (g : globals) (size : Z)
    (icon : history) :
  draw_icon (L := recording) g size = Ok icon →
  let S := RENDER_SIZE g in
  calls icon = shape_descriptors (Z.max 2 (sc S 0.016)) S
  ∧ (2 ≤ sc S 0.016 → calls icon = ratio_composition S).
Proof.
  intros [-> _]%draw_icon_recorded S. cbn [calls].
  rewrite calls_canvas_of. split; [done|].
  intros Hfloor. unfold composition, ratio_composition.
  by rewrite Z.max_r.
Qed.

Lemma composition_scales_but_for_notch_radius_witness :
  let icon := Resized (canvas_of 512 (composition 512)) (16, 16) LANCZOS in
  calls icon = shape_descriptors (Z.max 2 (sc 512 0.016)) 512
  ∧ (2 ≤ sc 512 0.016 → calls icon = ratio_composition 512).
Proof.
  apply (composition_scales_but_for_notch_radius
           (module_globals "/ext/icons") 16).
  vm_compute. reflexivity.
Defined.

(** C4 does not hold of every dimension: at the canonical size 64 the
    notches are drawn with the radius 2 where [int(64 * 0.016)] is 1,
    so the calls are not those of the composition by ratios. *)
Lemma notch_radius_has_a_floor :
  ∃ icon,
    draw_icon (L := recording) (Globals "/ext/icons" [16; 32; 48; 128] 64) 16
    = Ok icon
    ∧ calls icon ≠ ratio_composition 64
    ∧ calls icon !! 4%nat ≫= rounded_radius = Some 2
    ∧ scaled 64 0.016 = Ok 1.
Proof.
  exists (Resized (canvas_of 64 (composition 64)) (16, 16) LANCZOS).
  split; [vm_compute; reflexivity|].
  split; [|split; vm_compute; reflexivity].
  intros Heq. vm_compute in Heq. discriminate.
Qed.

(** C7, the tip overlapping the stick: the tip is a triangle in the
    stick's fill whose two upper vertices have the x-coordinates of the
    stick's left and right edges and lie at [int(S * 0.844)], above the
    stick's bottom edge at [int(S * 0.891)] and below its top edge, so
    that the triangle overlaps the stick's lower end; its apex is one
    point on the centre line at [int(S * 0.953)], below the stick's
    bottom edge. *)
Theorem tip_overlaps_stick_end (dir : string) (size : Z) :
  1 ≤ size →
  ∃ icon,
    draw_icon (L := recording) (module_globals dir) size = Ok icon
    ∧ ∃ stick r fill tip_top apex,
        calls icon !! 1%nat = Some (rounded_rectangle stick r fill)
        ∧ calls icon !! 2%nat
          = Some (polygon [(x0 stick, tip_top); (x1 stick, tip_top); apex]
                    fill)
        ∧ (let S := RENDER_SIZE (module_globals dir) in
           tip_top = sc S 0.844
           ∧ y1 stick = sc S 0.891
           ∧ apex = (S // 2, sc S 0.953))
        ∧ y0 stick < tip_top < y1 stick
        ∧ y1 stick < apex.2
        ∧ x0 stick < apex.1 < x1 stick.
Proof.
  intros Hsize. rewrite draw_icon_shipped by done.
  eexists. split; [reflexivity|].
  cbn [calls]. rewrite calls_canvas_of, composition_shipped.
  do 5 eexists. split; [reflexivity|]. split; [reflexivity|].
  split; [vm_compute; repeat split|]. cbn. lia.
Qed.

Lemma tip_overlaps_stick_end_witness :
  ∃ icon,
    draw_icon (L := recording) (module_globals "/ext/icons") 32 = Ok icon
    ∧ ∃ stick r fill tip_top apex,
        calls icon !! 1%nat = Some (rounded_rectangle stick r fill)
        ∧ calls icon !! 2%nat
          = Some (polygon [(x0 stick, tip_top); (x1 stick, tip_top); apex]
                    fill)
        ∧ (let S := RENDER_SIZE (module_globals "/ext/icons") in
           tip_top = sc S 0.844
           ∧ y1 stick = sc S 0.891
           ∧ apex = (S // 2, sc S 0.953))
        ∧ y0 stick < tip_top < y1 stick
        ∧ y1 stick < apex.2
        ∧ x0 stick < apex.1 < x1 stick.
Proof. apply (tip_overlaps_stick_end "/ext/icons" 32). lia. Defined.

(** C7 does not hold of the y-coordinate: the tip's upper vertices are
    at y = 432, the stick's bottom edge is at y = 456. *)
Lemma tip_is_not_hung_from_stick_bottom :
  ∃ icon,
    draw_icon (L := recording) (module_globals "/ext/icons") 16 = Ok icon
    ∧ calls icon !! 1%nat
      = Some (rounded_rectangle (Box 240 55 272 456) 16 [248; 249; 250])
    ∧ calls icon !! 2%nat
      = Some (polygon [(240, 432); (272, 432); (256, 487)] [248; 249; 250])
    ∧ ¬ tip_meets_stick_bottom (calls icon).
Proof.
  rewrite draw_icon_shipped by lia.
  eexists. split; [reflexivity|].
  cbn [calls]. rewrite calls_canvas_of, composition_shipped.
  split; [reflexivity|]. split; [reflexivity|].
  intros (stick & r & fill & apex & Hstick & Htip & _).
  cbn in Hstick, Htip. injection Hstick as <- _ _.
  cbn in Htip. discriminate.
Qed.

(** C10: the four chunks lie in vertical bands that are disjoint two by
    two; a chunk's body and notch span rows of the chunk's own band, so
    the calls of two different chunks never share a row. *)
Theorem chunk_bands_disjoint (dir : string) (size : Z) :
  1 ≤ size →
  let S := RENDER_SIZE (module_globals dir) in
  (∀ (i j : nat) ci cj,
     chunks !! i = Some ci → chunks !! j = Some cj → i ≠ j →
     bands_disjoint (band S ci) (band S cj) = true)
  ∧ ∃ icon,
      draw_icon (L := recording) (module_globals dir) size = Ok icon
      ∧ (∀ (i p : nat) c b,
           chunks !! i = Some c → (p < 2)%nat →
           calls icon !! (3 + 2 * i + p)%nat ≫= rounded_box = Some b →
           rows_within b (band S c) = true)
      ∧ (∀ (i j p q : nat) a b,
           (i < 4)%nat → (j < 4)%nat → i ≠ j → (p < 2)%nat → (q < 2)%nat →
           calls icon !! (3 + 2 * i + p)%nat ≫= rounded_box = Some a →
           calls icon !! (3 + 2 * j + q)%nat ≫= rounded_box = Some b →
           rows_disjoint a b = true).
Proof.
  intros Hsize S. split.
  - intros i j ci cj Hi Hj Hij.
    destruct i as [|[|[|[|i]]]]; cbn in Hi; try discriminate;
      injection Hi as <-;
      destruct j as [|[|[|[|j]]]]; cbn in Hj; try discriminate;
      injection Hj as <-;
      first [ done | vm_compute; reflexivity ].
  - rewrite draw_icon_shipped by done.
    eexists. split; [reflexivity|].
    cbn [calls]. rewrite calls_canvas_of, composition_shipped.
    split.
    + intros i p c b Hc Hp.
      destruct i as [|[|[|[|i]]]]; cbn in Hc; try discriminate;
        injection Hc as <-;
        destruct p as [|[|p]]; try lia;
        cbn; intros [= <-]; vm_compute; reflexivity.
    + intros i j p q a b Hi Hj Hij Hp Hq.
      destruct i as [|[|[|[|i]]]]; try lia;
        destruct j as [|[|[|[|j]]]]; try lia;
        destruct p as [|[|p]]; try lia;
        destruct q as [|[|q]]; try lia;
        cbn; intros [= <-] [= <-]; reflexivity.
Qed.

Lemma chunk_bands_disjoint_witness :
  let S := RENDER_SIZE (module_globals "/ext/icons") in
  (∀ (i j : nat) ci cj,
     chunks !! i = Some ci → chunks !! j = Some cj → i ≠ j →
     bands_disjoint (band S ci) (band S cj) = true)
  ∧ ∃ icon,
      draw_icon (L := recording) (module_globals "/ext/icons") 16 = Ok icon
      ∧ (∀ (i p : nat) c b,
           chunks !! i = Some c → (p < 2)%nat →
           calls icon !! (3 + 2 * i + p)%nat ≫= rounded_box = Some b →
           rows_within b (band S c) = true)
      ∧ (∀ (i j p q : nat) a b,
           (i < 4)%nat → (j < 4)%nat → i ≠ j → (p < 2)%nat → (q < 2)%nat →
           calls icon !! (3 + 2 * i + p)%nat ≫= rounded_box = Some a →
           calls icon !! (3 + 2 * j + q)%nat ≫= rounded_box = Some b →
           rows_disjoint a b = true).
Proof. apply (chunk_bands_disjoint "/ext/icons" 16). lia. Defined.

(** ** The exporter *)

(** C8: every size of the size list is strictly below the canonical
    render size, so the resize only ever scales down. *)
Theorem sizes_below_render_size (dir : string) :
  SIZES (module_globals dir) = [16; 32; 48; 128]
  ∧ RENDER_SIZE (module_globals dir) = 512
  ∧ Forall (λ s, 0 < s < RENDER_SIZE (module_globals dir))
      (SIZES (module_globals dir)).
Proof.
  split; [reflexivity|]. split; [reflexivity|].
  cbn. repeat constructor; lia.
Qed.

Lemma path_join_inj (dir a b : string) :
  startswith a "/" = false → startswith b "/" = false →
  path_join dir a = path_join dir b → a = b.
Proof.
  unfold path_join. intros -> ->.
  destruct (bool_decide (dir = "") || endswith dir "/").
  - apply (inj (String.app dir)).
  - intros Heq%(inj (String.app dir)). by apply (inj (String.app "/")) in Heq.
Qed.

Lemma export_returns {L : Imaging} (dir : string) (s : Z) (icon : image)
    (w : world) :
  draw_icon (module_globals dir) s = Ok icon →
  export (module_globals dir) () s w
  = (Ok (),
     World (<[path_join dir ("icon" +:+ str s +:+ ".png")
              := File "PNG" icon]> (files w))
       (stdout w
        ++ ["  Generated " +:+ path_join dir ("icon" +:+ str s +:+ ".png")
            +:+ " (" +:+ str s +:+ "x" +:+ str s +:+ ")"])).
Proof.
  intros Hrun. unfold export, mbind, action_bind, lift. by rewrite Hrun.
Qed.

(** C6: with the default size list the exporter writes four files and
    no other, [icon16.png], [icon32.png], [icon48.png] and [icon128.png]
    of the script's directory, in the order of the list, each the PNG
    encoding of an image whose dimensions are the size in its name. *)
Theorem main_exports_four_icons {L : Imaging} (dir : string) (w0 : world) :
  let g := module_globals dir in
  let p16 := path_join dir "icon16.png" in
  let p32 := path_join dir "icon32.png" in
  let p48 := path_join dir "icon48.png" in
  let p128 := path_join dir "icon128.png" in
  ∃ (i16 i32 i48 i128 : image) (w1 : world),
    main g w0 = (Ok (), w1)
    ∧ draw_icon g 16 = Ok i16 ∧ draw_icon g 32 = Ok i32
    ∧ draw_icon g 48 = Ok i48 ∧ draw_icon g 128 = Ok i128
    ∧ files w1
      = <[p128 := File "PNG" i128]>
          (<[p48 := File "PNG" i48]>
             (<[p32 := File "PNG" i32]>
                (<[p16 := File "PNG" i16]> (files w0))))
    ∧ declared_size (File "PNG" i16) = (16, 16)
    ∧ declared_size (File "PNG" i32) = (32, 32)
    ∧ declared_size (File "PNG" i48) = (48, 48)
    ∧ declared_size (File "PNG" i128) = (128, 128)
    ∧ NoDup [p16; p32; p48; p128]
    ∧ dom (files w1) = dom (files w0) ∪ {[p16; p32; p48; p128]}
    ∧ (files w0 = ∅ → size (files w1) = 4%nat)
    ∧ stdout w1
      = stdout w0
        ++ ["  Generated " +:+ p16 +:+ " (16x16)";
            "  Generated " +:+ p32 +:+ " (32x32)";
            "  Generated " +:+ p48 +:+ " (48x48)";
            "  Generated " +:+ p128 +:+ " (128x128)";
            "Done!"].
Proof.
  intros g p16 p32 p48 p128.
  destruct (draw_icon_lawful dir 16) as (i16 & H16 & Hs16 & _); [done|].
  destruct (draw_icon_lawful dir 32) as (i32 & H32 & Hs32 & _); [done|].
  destruct (draw_icon_lawful dir 48) as (i48 & H48 & Hs48 & _); [done|].
  destruct (draw_icon_lawful dir 128) as (i128 & H128 & Hs128 & _); [done|].
  assert (p16 ≠ p32 ∧ p16 ≠ p48 ∧ p16 ≠ p128
          ∧ p32 ≠ p48 ∧ p32 ≠ p128 ∧ p48 ≠ p128)
    as (H16_32 & H16_48 & H16_128 & H32_48 & H32_128 & H48_128).
  { repeat split; intros Heq; by apply path_join_inj in Heq. }
  assert (NoDup [p16; p32; p48; p128]) as Hnodup.
  { repeat (apply NoDup_cons; split;
            [rewrite ?elem_of_cons, ?elem_of_nil; tauto|]).
    apply NoDup_nil_2. }
  exists i16, i32, i48, i128. eexists.
  split.
  { unfold main, mbind at 1, action_bind at 1.
    cbn [SIZES g module_globals for_each].
    unfold mbind, action_bind.
    rewrite (export_returns dir 16 i16) by done.
    rewrite (export_returns dir 32 i32) by done.
    rewrite (export_returns dir 48 i48) by done.
    rewrite (export_returns dir 128 i128) by done.
    cbn [mret action_ret]. unfold print. reflexivity. }
  cbn [files stdout].
  change ("icon" +:+ str 16 +:+ ".png") with "icon16.png".
  change ("icon" +:+ str 32 +:+ ".png") with "icon32.png".
  change ("icon" +:+ str 48 +:+ ".png") with "icon48.png".
  change ("icon" +:+ str 128 +:+ ".png") with "icon128.png".
  fold p16 p32 p48 p128.
  repeat (split; [done|]).
  split.
  { rewrite !dom_insert_L. apply set_eq. intros x.
    rewrite !elem_of_union, !elem_of_singleton. tauto. }
  split.
  { intros ->.
    rewrite !map_size_insert_None, map_size_empty; [done|..].
    - apply lookup_empty.
    - rewrite lookup_insert_ne by done. apply lookup_empty.
    - rewrite !lookup_insert_ne by done. apply lookup_empty.
    - rewrite !lookup_insert_ne by done. apply lookup_empty. }
  rewrite <- !app_assoc. reflexivity.
Qed.

(** A run of the exporter in the recording implementation, from an
    empty directory. *)
Example main_from_scratch :
  let '(r, w) := main (L := recording) (module_globals "/ext/icons")
                   (World ∅ []) in
  r = Ok ()
  ∧ size (files w) = 4%nat
  ∧ files w !! "/ext/icons/icon16.png"
    = Some (File "PNG" (Resized (canvas_of 512 shipped) (16, 16) LANCZOS))
  ∧ stdout w
    = ["  Generated /ext/icons/icon16.png (16x16)";
       "  Generated /ext/icons/icon32.png (32x32)";
       "  Generated /ext/icons/icon48.png (48x48)";
       "  Generated /ext/icons/icon128.png (128x128)";
       "Done!"].
Proof. vm_compute. repeat split. Qed.

(** ** File names *)

Lemma string_app_cons (a : ascii) (s t : string) :
  String a s +:+ t = String a (s +:+ t).
Proof. reflexivity. Qed.

Lemma string_length_app (s t : string) :
  String.length (s +:+ t) = (String.length s + String.length t)%nat.
Proof.
  induction s as [|a s IH]; [done|].
  rewrite string_app_cons. cbn. by rewrite IH.
Qed.

Lemma string_app_inv_tail (s1 s2 t : string) :
  s1 +:+ t = s2 +:+ t → s1 = s2.
Proof.
  revert s2. induction s1 as [|a s1 IH]; intros [|b s2] Heq.
  - done.
  - apply (f_equal String.length) in Heq.
    change ("" +:+ t) with t in Heq.
    rewrite string_app_cons in Heq. cbn in Heq.
    rewrite string_length_app in Heq. lia.
  - apply (f_equal String.length) in Heq.
    change ("" +:+ t) with t in Heq.
    rewrite string_app_cons in Heq. cbn in Heq.
    rewrite string_length_app in Heq. lia.
  - rewrite !string_app_cons in Heq. injection Heq as -> Heq.
    f_equal. by apply IH.
Qed.

Lemma str_inj (n m : Z) : str n = str m → n = m.
Proof.
  unfold str. intros Heq. apply DecimalZ.to_int_inj.
  assert (∀ z, NilZero.int_of_string (NilZero.string_of_int (Z.to_int z))
               = Some (Z.to_int z)) as Hparse.
  { intros z. apply NilZero.isi; destruct z as [|p|p]; cbn; try done;
      intros [= Hp]; by apply DecimalPos.Unsigned.to_uint_nonnil in Hp. }
  pose proof (Hparse n) as Hn. rewrite Heq, Hparse in Hn. congruence.
Qed.

Lemma out_path_inj (dir : string) (s s' : Z) :
  out_path dir s = out_path dir s' → s = s'.
Proof.
  unfold out_path. intros Heq.
  apply path_join_inj in Heq; [|done..].
  apply (inj (String.app "icon")) in Heq.
  by apply string_app_inv_tail, str_inj in Heq.
Qed.

(** X1: two different sizes never share a file name, whatever the
    directory: no size of a list overwrites the icon of another. *)
Theorem out_path_distinct (dir : string) (s s' : Z) :
  s ≠ s' → out_path dir s ≠ out_path dir s'.
Proof. intros Hne Heq. by apply Hne, (out_path_inj dir). Qed.

Lemma out_path_distinct_witness :
  16 ≠ -16 ∧ out_path "/ext/icons" 16 ≠ out_path "/ext/icons" (-16).
Proof.
  split; [lia|]. apply (out_path_distinct "/ext/icons" 16 (-16)). lia.
Defined.

(** ** The export loop, whatever its sizes *)

Section ExportLoop.

Context {L : Imaging}.

#[local] Existing Instance action_bind.
#[local] Existing Instance action_ret.

Lemma export_Ok g s icon w :
  draw_icon g s = Ok icon →
  export g () s w
  = (Ok (),
     World (<[out_path (ICONS_DIR g) s := File "PNG" icon]> (files w))
       (stdout w ++ [report (ICONS_DIR g) s])).
Proof.
  intros Hrun. unfold export, mbind, action_bind, lift. by rewrite Hrun.
Qed.

Lemma export_Raise g s e w :
  draw_icon g s = Raise e → export g () s w = (Raise e, w).
Proof.
  intros Hrun. unfold export, mbind, action_bind, lift. by rewrite Hrun.
Qed.

Lemma loop_cons g s rest w :
  for_each (export g) (s :: rest) () w
  = match export g () s w with
    | (Ok _, w') => for_each (export g) rest () w'
    | (Raise e, w') => (Raise e, w')
    end.
Proof.
  cbn [for_each]. unfold mbind at 1, action_bind at 1.
  by destruct (export g () s w) as [[[]|e] w'].
Qed.

Lemma loop_app g l1 l2 w :
  for_each (export g) (l1 ++ l2) () w
  = match for_each (export g) l1 () w with
    | (Ok _, w') => for_each (export g) l2 () w'
    | (Raise e, w') => (Raise e, w')
    end.
Proof.
  revert w. induction l1 as [|s l1 IH]; intros w; [done|].
  rewrite <- app_comm_cons, !loop_cons.
  by destruct (export g () s w) as [[[]|e] w'].
Qed.

Lemma main_loop g w :
  main g w
  = match for_each (export g) (SIZES g) () w with
    | (Ok _, w') => (Ok (), World (files w') (stdout w' ++ ["Done!"]))
    | (Raise e, w') => (Raise e, w')
    end.
Proof.
  unfold main, mbind at 1, action_bind at 1.
  by destruct (for_each (export g) (SIZES g) () w) as [[[]|e] w'].
Qed.

(** What holds of the loop whether it returns or raises. *)
Lemma loop_frame g l w :
  let w' := (for_each (export g) l () w).2 in
  (∀ k, k ∉ out_path (ICONS_DIR g) <$> l → files w' !! k = files w !! k)
  ∧ dom (files w) ⊆ dom (files w')
  ∧ stdout w `prefix_of` stdout w'.
Proof.
  revert w. induction l as [|s l IH]; intros w; cbn zeta.
  { done. }
  rewrite loop_cons.
  destruct (draw_icon g s) as [icon|e] eqn:Hrun.
  - rewrite (export_Ok _ _ _ _ Hrun).
    match goal with
    | |- context [for_each _ l () ?w1] =>
        destruct (IH w1) as (Hkeep & Hdom & Hout)
    end.
    cbn [files stdout] in *. split; [|split].
    + intros k Hk. rewrite fmap_cons, not_elem_of_cons in Hk.
      destruct Hk as [Hne Hk].
      rewrite Hkeep by done. by rewrite lookup_insert_ne.
    + etrans; [|exact Hdom]. rewrite dom_insert_L.
      apply union_subseteq_r.
    + etrans; [|exact Hout]. by apply prefix_app_r.
  - by rewrite (export_Raise _ _ _ _ Hrun).
Qed.

Lemma draw_icon_at_512 g s :
  RENDER_SIZE g = 512 → 1 ≤ s →
  ∃ icon, draw_icon g s = Ok icon
          ∧ im_size icon = (s, s) ∧ im_mode icon = "RGBA".
Proof.
  intros HS Hs.
  destruct (draw_icon_lawful "" s Hs) as (icon & Hrun & Hsize & Hmode).
  exists icon. split; [|done].
  rewrite <- Hrun. unfold draw_icon. by rewrite HS.
Qed.

Lemma draw_icon_at_512_rejects g s :
  RENDER_SIZE g = 512 → s ≤ 0 → draw_icon g s = Raise ValueError.
Proof.
  intros HS Hs.
  destruct (draw_icon_lawful "" 1) as (icon & Hrun & _); [done|].
  apply draw_icon_factors in Hrun as (canvas & _ & ->); [|done].
  apply resize_rejects. lia.
Qed.

(** The loop over sizes that are all positive. *)
Lemma loop_returns g l w :
  RENDER_SIZE g = 512 → Forall (λ s, 1 ≤ s) l →
  ∃ w',
    for_each (export g) l () w = (Ok (), w')
    ∧ stdout w' = stdout w ++ (report (ICONS_DIR g) <$> l)
    ∧ dom (files w')
      = dom (files w) ∪ list_to_set (out_path (ICONS_DIR g) <$> l)
    ∧ ∀ s, s ∈ l →
        ∃ icon, draw_icon g s = Ok icon
                ∧ files w' !! out_path (ICONS_DIR g) s
                  = Some (File "PNG" icon)
                ∧ declared_size (File "PNG" icon) = (s, s).
Proof.
  intros HS Hl. revert w. induction Hl as [|s l Hs Hl IH]; intros w.
  { exists w. cbn. rewrite app_nil_r, union_empty_r_L.
    repeat split. intros s Hs. by apply elem_of_nil in Hs. }
  destruct (draw_icon_at_512 g s HS Hs) as (icon & Hrun & Hsize & _).
  rewrite loop_cons, (export_Ok _ _ _ _ Hrun).
  match goal with
  | |- context [for_each _ l () ?w1] =>
      destruct (IH w1) as (w' & Hloop & Hout & Hdom & Hfiles);
      pose proof (loop_frame g l w1) as (Hkeep & _ & _)
  end.
  rewrite Hloop in Hkeep. cbn [files stdout snd] in *.
  exists w'. split; [done|]. split; [|split].
  - rewrite Hout, fmap_cons, <- app_assoc. done.
  - rewrite Hdom, dom_insert_L, fmap_cons. cbn [list_to_set].
    apply set_eq. intros k. rewrite !elem_of_union. tauto.
  - intros s' Hs'. destruct (decide (s' ∈ l)) as [Hin|Hnotin]; [by apply Hfiles|].
    apply elem_of_cons in Hs' as [->|Hin]; [|done].
    exists icon. split; [done|]. split; [|done].
    rewrite Hkeep, lookup_insert_eq; [done|].
    intros (s'' & Heq & Hin)%list_elem_of_fmap.
    apply out_path_inj in Heq as ->. done.
Qed.

Lemma main_returns dir sizes w0 :
  Forall (λ s, 1 ≤ s) sizes →
  ∃ w1,
    main (Globals dir sizes 512) w0 = (Ok (), w1)
    ∧ stdout w1 = stdout w0 ++ (report dir <$> sizes) ++ ["Done!"]
    ∧ dom (files w1)
      = dom (files w0) ∪ list_to_set (out_path dir <$> sizes)
    ∧ (∀ k, k ∉ out_path dir <$> sizes → files w1 !! k = files w0 !! k)
    ∧ ∀ s, s ∈ sizes →
        ∃ icon, draw_icon (Globals dir sizes 512) s = Ok icon
                ∧ files w1 !! out_path dir s = Some (File "PNG" icon)
                ∧ declared_size (File "PNG" icon) = (s, s).
Proof.
  intros Hsizes. set (g := Globals dir sizes 512).
  destruct (loop_returns g sizes w0 eq_refl Hsizes)
    as (w' & Hloop & Hout & Hdom & Hfiles).
  pose proof (loop_frame g sizes w0) as (Hkeep & _ & _).
  rewrite main_loop. cbn [SIZES g]. fold g.
  rewrite Hloop in Hkeep |- *. cbn [snd ICONS_DIR g] in *.
  eexists. split; [reflexivity|]. cbn [files stdout].
  rewrite Hout, <- app_assoc. done.
Qed.



(** X4: whatever the globals and however the run ends, the exporter
    changes no file but those named [icon{s}.png] for a size of its
    list, removes no file, and only adds to what was printed. *)
Theorem main_touches_only_its_files (g : globals) (w0 : world) :
  let w1 := (main g w0).2 in
  (∀ k, k ∉ out_path (ICONS_DIR g) <$> SIZES g →
        files w1 !! k = files w0 !! k)
  ∧ dom (files w0) ⊆ dom (files w1)
  ∧ stdout w0 `prefix_of` stdout w1.
Proof.
  pose proof (loop_frame g (SIZES g) w0) as (Hkeep & Hdom & Hout).
  rewrite main_loop.
  destruct (for_each (export g) (SIZES g) () w0) as [[[]|e] w'];
    cbn [snd files stdout] in *; [|done].
  repeat split; [done..|]. by apply prefix_app_r.
Qed.


End ExportLoop.




(** ** The composition at any canonical size *)

Lemma recorded_calls g size icon :
  draw_icon (L := recording) g size = Ok icon →
  calls icon = composition (RENDER_SIZE g).
Proof.
  intros [-> _]%draw_icon_recorded. cbn [calls]. apply calls_canvas_of.
Qed.

(** X6: whatever the canonical size, the disc, the stick, the tip, the
    chunks and the knob are centred on the canvas to the pixel: the
    first and last columns of each add up to [S] or to [S - 1]. Only the
    notches, at positions 4, 6, 8 and 10, sit off centre. *)
Theorem shapes_centred (g : globals) (size : Z) (icon : history)
    (i : nat) (c : draw_call) (l r : Z) :
  draw_icon (L := recording) g size = Ok icon →
  calls icon !! i = Some c →
  i ∉ [4; 6; 8; 10]%nat →
  x_span c = Some (l, r) →
  RENDER_SIZE g - 1 ≤ l + r ≤ RENDER_SIZE g.
Proof.
  intros Hcalls%recorded_calls Hc Hi Hspan. rewrite Hcalls in Hc.
  rewrite !not_elem_of_cons in Hi.
  unfold composition, shape_descriptors, chunks in Hc.
  cbn [flat_map chunk_descriptors app] in Hc.
  do 13 (destruct i as [|i]; [try (exfalso; lia);
    injection Hc as <-; cbn [x_span foldr fmap list_fmap fst x0 x1] in Hspan;
    injection Hspan as <- <-;
    unfold Py.floordiv; Z.div_mod_to_equations; lia|]).
  discriminate.
Qed.

Lemma shapes_centred_witness :
  512 - 1 ≤ 240 + 272 ≤ 512.
Proof.
  apply (shapes_centred (module_globals "/ext/icons") 16
           (Resized (canvas_of 512 shipped) (16, 16) LANCZOS) 2
           (polygon [(240, 432); (272, 432); (256, 487)] [248; 249; 250])
           240 272).
  - vm_compute. reflexivity.
  - vm_compute. reflexivity.
  - rewrite !not_elem_of_cons, elem_of_nil. lia.
  - vm_compute. reflexivity.
Defined.

(** X7: whatever the canonical size, the four notches are alike: each
    starts at the top edge of its chunk, at one offset from the chunk's
    left edge, with one width, one height and one corner radius, which
    is never below two pixels; the four chunks have one corner radius
    too, although the last chunk is smaller. *)
Theorem notches_alike (g : globals) (size : Z) (icon : history) :
  draw_icon (L := recording) g size = Ok icon →
  ∃ off tab_w tab_h tab_r body_r,
    2 ≤ tab_r
    ∧ ∀ i, (i < 4)%nat →
        ∃ body notch body_fill notch_fill,
          calls icon !! (3 + 2 * i)%nat
          = Some (rounded_rectangle body body_r body_fill)
          ∧ calls icon !! (4 + 2 * i)%nat
            = Some (rounded_rectangle notch tab_r notch_fill)
          ∧ x0 notch = x0 body + off
          ∧ y0 notch = y0 body
          ∧ x1 notch = x0 notch + tab_w
          ∧ y1 notch = y0 notch + tab_h.
Proof.
  intros Hcalls%recorded_calls. rewrite Hcalls.
  set (S := RENDER_SIZE g).
  exists (sc S 0.031), (sc S 0.109), (sc S 0.047),
    (Z.max 2 (sc S 0.016)), (sc S 0.039).
  split; [lia|]. intros i Hi.
  unfold composition, shape_descriptors, chunks.
  cbn [flat_map chunk_descriptors app].
  do 4 (destruct i as [|i];
        [do 4 eexists; repeat split; cbn; lia|]).
  lia.
Qed.

Lemma notches_alike_witness :
  ∃ off tab_w tab_h tab_r body_r,
    2 ≤ tab_r
    ∧ ∀ i, (i < 4)%nat →
        ∃ body notch body_fill notch_fill,
          calls (Resized (canvas_of 64 (composition 64)) (16, 16) LANCZOS)
            !! (3 + 2 * i)%nat
          = Some (rounded_rectangle body body_r body_fill)
          ∧ calls (Resized (canvas_of 64 (composition 64)) (16, 16) LANCZOS)
              !! (4 + 2 * i)%nat
            = Some (rounded_rectangle notch tab_r notch_fill)
          ∧ x0 notch = x0 body + off
          ∧ y0 notch = y0 body
          ∧ x1 notch = x0 notch + tab_w
          ∧ y1 notch = y0 notch + tab_h.
Proof.
  apply (notches_alike (Globals "/ext/icons" [16] 64) 16).
  vm_compute. reflexivity.
Defined.

(** X8: whatever the canonical size, thirteen calls are issued, the
    disc first and the knob last; the knob's two circles are centred
    on the top end of the stick, on the centre column at the stick's
    top edge, the outer one in the stick's colour and the inner one in
    the disc's. *)
Theorem knob_on_stick_top (g : globals) (size : Z) (icon : history) :
  draw_icon (L := recording) g size = Ok icon →
  length (calls icon) = 13%nat
  ∧ ∃ disc stick r outer inner paper ink,
      calls icon !! 0%nat = Some (ellipse disc ink)
      ∧ calls icon !! 1%nat = Some (rounded_rectangle stick r paper)
      ∧ calls icon !! 11%nat = Some (ellipse outer paper)
      ∧ calls icon !! 12%nat = Some (ellipse inner ink)
      ∧ x0 outer + x1 outer = 2 * (RENDER_SIZE g // 2)
      ∧ x0 inner + x1 inner = 2 * (RENDER_SIZE g // 2)
      ∧ y0 outer + y1 outer = 2 * y0 stick
      ∧ y0 inner + y1 inner = 2 * y0 stick.
Proof.
  intros Hcalls%recorded_calls. rewrite Hcalls.
  split; [reflexivity|].
  do 7 eexists. do 4 (split; [reflexivity|]). cbn. lia.
Qed.

Lemma knob_on_stick_top_witness :
  length (calls (Resized (canvas_of 512 shipped) (16, 16) LANCZOS))
  = 13%nat
  ∧ ∃ disc stick r outer inner paper ink,
      calls (Resized (canvas_of 512 shipped) (16, 16) LANCZOS) !! 0%nat
      = Some (ellipse disc ink)
      ∧ calls (Resized (canvas_of 512 shipped) (16, 16) LANCZOS) !! 1%nat
        = Some (rounded_rectangle stick r paper)
      ∧ calls (Resized (canvas_of 512 shipped) (16, 16) LANCZOS) !! 11%nat
        = Some (ellipse outer paper)
      ∧ calls (Resized (canvas_of 512 shipped) (16, 16) LANCZOS) !! 12%nat
        = Some (ellipse inner ink)
      ∧ x0 outer + x1 outer
        = 2 * (RENDER_SIZE (module_globals "/ext/icons") // 2)
      ∧ x0 inner + x1 inner
        = 2 * (RENDER_SIZE (module_globals "/ext/icons") // 2)
      ∧ y0 outer + y1 outer = 2 * y0 stick
      ∧ y0 inner + y1 inner = 2 * y0 stick.
Proof.
  apply (knob_on_stick_top (module_globals "/ext/icons") 16).
  vm_compute. reflexivity.
Defined.

(** ** Other canonical sizes *)

Lemma h_draw_wf c h : well_formed c = true → h_draw c h = Ok (Drawn c h).
Proof. unfold h_draw. by intros ->. Qed.

Ltac member :=
  repeat first [apply list_elem_of_here | apply list_elem_of_further].

Lemma draw_icon_composes g size :
  composes_at (RENDER_SIZE g) = true →
  draw_icon (L := recording) g size
  = h_resize (canvas_of (RENDER_SIZE g) (composition (RENDER_SIZE g)))
      (size, size) LANCZOS.
Proof.
  set (S := RENDER_SIZE g). unfold composes_at.
  rewrite !andb_true_iff, !forallb_forall.
  intros [[HS%Z.leb_le Hsc] Hwf].
  assert (∀ r, r ∈ fst <$> ratios → scaled S r = Ok (sc S r)) as Hscaled.
  { intros r Hr%list_elem_of_In%Hsc. unfold sc.
    by destruct (scaled S r). }
  assert (∀ c, c ∈ composition S → well_formed c = true) as Hcalls.
  { intros c Hc%list_elem_of_In. by apply Hwf. }
  clear Hsc Hwf.
  unfold draw_icon, chunks. fold S. cbn [for_each draw Image_new resize recording].
  unfold draw_chunk. cbn [draw recording].
  unfold h_new. cbn [fst snd].
  destruct (Z.ltb_spec S 0); [lia|]. cbn [orb mbind result_bind].
  unfold composition, shape_descriptors, chunks in Hcalls.
  cbn [flat_map chunk_descriptors app] in Hcalls.
  repeat
    (first
       [ match goal with
         | |- context [scaled S ?r] =>
             rewrite (Hscaled r) by (cbn; member)
         end
       | match goal with
         | |- context [h_draw ?c ?h] =>
             rewrite (h_draw_wf c h) by (apply Hcalls; member)
         end ];
     cbn [mbind result_bind mret result_ret]).
  unfold canvas_of, composition, shape_descriptors, chunks.
  cbn [flat_map chunk_descriptors app foldl]. reflexivity.
Qed.

(** The check, run on every canonical size up to twice the module's. *)
Lemma sizes_checked : forallb size_ok (seqZ 0 1025) = true.
Proof. vm_compute. reflexivity. Qed.

Lemma size_checked S : 0 ≤ S ≤ 1024 → size_ok S = true.
Proof.
  intros HS. pose proof sizes_checked as Hall.
  rewrite forallb_forall in Hall. apply Hall, list_elem_of_In.
  apply elem_of_seqZ. lia.
Qed.

Lemma size_ok_parts S :
  0 ≤ S ≤ 1024 →
  composes_at S = true
  ∧ forallb (in_canvas S) (composition S) = true
  ∧ forallb (chunk_ok (composition S)) [0; 1; 2; 3]%nat = true
  ∧ (34 ≤ S →
     forallb (chunk_above (composition S))
       [(0, 1); (0, 2); (0, 3); (1, 2); (1, 3); (2, 3)]%nat = true)
  ∧ (S ≠ 625 → forallb (exact_at S) ratios = true).
Proof.
  intros HS%size_checked. unfold size_ok in HS.
  rewrite !andb_true_iff, !orb_true_iff in HS.
  destruct HS as [[[[Hc Hin] Hchunk] Habove] Hexact].
  repeat split; try done.
  - intros H34. destruct Habove as [Hlt%Z.ltb_lt|]; [lia|done].
  - intros H625. destruct Hexact as [Heq%Z.eqb_eq|]; [lia|done].
Qed.



(** X10: at every canonical size from 0 to 1024 each call stays on the
    canvas: no box and no point of the tip has a coordinate below 0 or
    above the canonical size. *)
Theorem calls_stay_on_canvas (g : globals) (size : Z) (icon : history)
    (c : draw_call) :
  0 ≤ RENDER_SIZE g ≤ 1024 →
  draw_icon (L := recording) g size = Ok icon →
  c ∈ calls icon →
  in_canvas (RENDER_SIZE g) c = true.
Proof.
  intros (_ & Hin & _)%size_ok_parts Hcalls%recorded_calls Hc.
  rewrite Hcalls in Hc. rewrite forallb_forall in Hin.
  by apply Hin, list_elem_of_In.
Qed.

Lemma calls_stay_on_canvas_witness :
  in_canvas 512
    (polygon [(240, 432); (272, 432); (256, 487)] [248; 249; 250])
  = true.
Proof.
  apply (calls_stay_on_canvas (module_globals "/ext/icons") 16
           (Resized (canvas_of 512 shipped) (16, 16) LANCZOS)).
  - cbn. lia.
  - vm_compute. reflexivity.
  - cbn [calls]. rewrite calls_canvas_of. unfold shipped.
    do 2 apply list_elem_of_further. apply list_elem_of_here.
Defined.

(** X11: at every canonical size from 0 to 1024 each chunk holds its
    notch and is threaded on the stick: the stick is no wider than the
    chunk and runs from above the chunk's top edge to below its bottom
    edge. *)
Theorem chunks_threaded (g : globals) (size : Z) (icon : history)
    (i : nat) :
  0 ≤ RENDER_SIZE g ≤ 1024 →
  draw_icon (L := recording) g size = Ok icon →
  (i < 4)%nat →
  ∃ stick body notch,
    stick_box (calls icon) = Some stick
    ∧ body_box (calls icon) i = Some body
    ∧ notch_box (calls icon) i = Some notch
    ∧ box_within notch body = true
    ∧ x0 body ≤ x0 stick ∧ x1 stick ≤ x1 body
    ∧ y0 stick ≤ y0 body ∧ y1 body ≤ y1 stick.
Proof.
  intros (_ & _ & Hchunk & _)%size_ok_parts Hcalls%recorded_calls Hi.
  rewrite Hcalls. rewrite forallb_forall in Hchunk.
  assert (chunk_ok (composition (RENDER_SIZE g)) i = true) as Hok.
  { apply Hchunk, list_elem_of_In.
    do 4 (destruct i as [|i]; [member|]). lia. }
  unfold chunk_ok in Hok.
  destruct (stick_box _) as [stick|], (body_box _ i) as [body|],
    (notch_box _ i) as [notch|]; try discriminate.
  rewrite !andb_true_iff, !Z.leb_le in Hok.
  exists stick, body, notch. tauto.
Qed.

Lemma chunks_threaded_witness :
  ∃ stick body notch,
    stick_box (calls (Resized (canvas_of 64 (composition 64)) (16, 16)
                        LANCZOS)) = Some stick
    ∧ body_box (calls (Resized (canvas_of 64 (composition 64)) (16, 16)
                         LANCZOS)) 3 = Some body
    ∧ notch_box (calls (Resized (canvas_of 64 (composition 64)) (16, 16)
                          LANCZOS)) 3 = Some notch
    ∧ box_within notch body = true
    ∧ x0 body ≤ x0 stick ∧ x1 stick ≤ x1 body
    ∧ y0 stick ≤ y0 body ∧ y1 body ≤ y1 stick.
Proof.
  apply (chunks_threaded (Globals "/ext/icons" [16] 64) 16).
  - cbn. lia.
  - vm_compute. reflexivity.
  - lia.
Defined.

(** X12: at every canonical size from 34 to 1024 the chunks are
    stacked in the order of the list without touching: a chunk ends
    above the row where the next one starts. *)
Theorem chunks_stacked_apart (g : globals) (size : Z) (icon : history)
    (i j : nat) (a b : box) :
  34 ≤ RENDER_SIZE g ≤ 1024 →
  draw_icon (L := recording) g size = Ok icon →
  (i < j < 4)%nat →
  body_box (calls icon) i = Some a →
  body_box (calls icon) j = Some b →
  y1 a < y0 b.
Proof.
  intros HS Hcalls%recorded_calls Hij Ha Hb. rewrite Hcalls in Ha, Hb.
  destruct (size_ok_parts (RENDER_SIZE g)) as (_ & _ & _ & Habove & _);
    [lia|].
  specialize (Habove ltac:(lia)). rewrite forallb_forall in Habove.
  assert (chunk_above (composition (RENDER_SIZE g)) (i, j) = true) as Hok.
  { apply Habove, list_elem_of_In.
    do 4 (destruct i as [|i]; [do 4 (destruct j as [|j]; [try lia; member|]); lia|]).
    lia. }
  unfold chunk_above in Hok. cbn [fst snd] in Hok.
  rewrite Ha, Hb in Hok. by apply Z.ltb_lt.
Qed.

Lemma chunks_stacked_apart_witness : 159 < 177.
Proof.
  apply (chunks_stacked_apart (module_globals "/ext/icons") 16
           (Resized (canvas_of 512 shipped) (16, 16) LANCZOS) 0 1
           (Box 168 80 344 159) (Box 168 177 344 256)).
  - cbn. lia.
  - vm_compute. reflexivity.
  - lia.
  - vm_compute. reflexivity.
  - vm_compute. reflexivity.
Defined.

(** Below 34 pixels chunks may touch: at 33 the third chunk ends on
    row 23, where the fourth starts. *)
Example chunks_touch_at_33 :
  body_box (composition 33) 2 = Some (Box 11 18 22 23)
  ∧ body_box (composition 33) 3 = Some (Box 12 23 21 27).
Proof. vm_compute. done. Qed.

(** X13: at every canonical size from 0 to 1024 but 625, each
    [int(S * r)] of the script is the floor of the exact product of the
    size and the decimal ratio: the rounding of the doubles moves no
    dimension. *)
Theorem products_exact (S : Z) (r : float) (p q : Z) :
  0 ≤ S ≤ 1024 → S ≠ 625 →
  (r, (p, q)) ∈ ratios →
  scaled S r = Ok (S * p / q).
Proof.
  intros (_ & _ & _ & _ & Hexact)%size_ok_parts H625 Hr.
  specialize (Hexact H625). rewrite forallb_forall in Hexact.
  apply list_elem_of_In, Hexact in Hr. unfold exact_at in Hr.
  cbn [fst snd] in Hr. destruct (scaled S r) as [v|]; [|done].
  by apply Z.eqb_eq in Hr as ->.
Qed.

Lemma products_exact_witness : scaled 100 0.109 = Ok (100 * 109 / 1000).
Proof.
  apply (products_exact 100 0.109 109 1000); [lia | lia |].
  unfold ratios. apply list_elem_of_further, list_elem_of_here.
Defined.

(** At 625 the product with 0.344 is one pixel short: the double
    nearest to 0.344 lies below it, and 625 times it below 215. *)
Example product_short_at_625 :
  scaled 625 0.344 = Ok 214 ∧ 625 * 344 / 1000 = 215.
Proof. vm_compute. done. Qed.
